(** * XDL Python bindings ([examples/embedding/python/xdl_wrapper.py])

    A shallow embedding of the ctypes bridge to the XDL native library:
    library discovery ([_load_library]), the handle life cycle
    ([__init__], [_initialize], [__del__]), the scalar call protocol
    ([call_function]) and the convenience functions [sin], [cos], [sqrt].

    Python methods are functions in a state-and-exception monad whose
    state is the receiver object together with the outside world (the
    native engine and a chronological log of every interaction with the
    file system, the loader and the three native entry points). *)

From Stdlib Require Import ZArith List String Ascii Bool Lia.
From Stdlib Require Import Floats.SpecFloat.
Import ListNotations.

Local Open Scope string_scope.
Local Open Scope Z_scope.

(** ** Host-language values *)

(** A Python [float] and a C [double] are the same IEEE-754 binary64
    datum; ctypes copies it without conversion in either direction. *)
Definition c_double : Type := spec_float.

(** A Python [str] is a sequence of code points, a [bytes] object a
    sequence of octets. *)
Definition str : Type := list Z.
Definition bytes : Type := list Z.

Definition str_of_string (s : string) : str :=
  map (fun c => Z.of_nat (nat_of_ascii c)) (list_ascii_of_string s).

(** The pieces of a formatted message: literal text, an interpolated
    string ([{system}]) and an interpolated list of strings
    ([{possible_paths}]), kept structured rather than rendered. *)
Inductive fpart : Type :=
| Lit (s : string)
| Fmt (s : string)
| FmtList (l : list string).

Definition message : Type := list fpart.

(** The exceptions that can leave the module. [RuntimeError] and
    [XdlError] are raised by the source itself; the other three come
    from the runtime: a failed [ctypes.CDLL] load, a missing attribute
    or symbol, and a [str] that UTF-8 cannot encode. *)
Inductive exn : Type :=
| RuntimeError (msg : message)
| XdlError (msg : message)
| OSError (path : string)
| AttributeError (attr : string)
| UnicodeEncodeError.

(** ** State and exceptions *)

Definition SE (S A : Type) : Type := S -> (exn + A) * S.

Definition ret {S A} (a : A) : SE S A := fun s => (inr a, s).

Definition raise {S A} (e : exn) : SE S A := fun s => (inl e, s).

Definition bind {S A B} (m : SE S A) (k : A -> SE S B) : SE S B :=
  fun s =>
    match m s with
    | (inl e, s') => (inl e, s')
    | (inr a, s') => k a s'
    end.

Definition gets {S A} (f : S -> A) : SE S A := fun s => (inr (f s), s).

Definition modify {S} (f : S -> S) : SE S unit := fun s => (inr tt, f s).

Declare Scope se_scope.
Delimit Scope se_scope with se.
Notation "x <- c1 ;; c2" := (bind c1 (fun x => c2))
  (at level 61, c1 at next level, right associativity) : se_scope.
Notation "c1 ;; c2" := (bind c1 (fun _ => c2))
  (at level 61, right associativity) : se_scope.
Local Open Scope se_scope.

(** ** Runtime primitives used by the source *)

(** [str.lower] on the ASCII letters (the identifiers returned by
    [platform.system()] are ASCII). *)
Definition lower_ascii (c : ascii) : ascii :=
  let n := nat_of_ascii c in
  if (65 <=? n)%nat && (n <=? 90)%nat then ascii_of_nat (n + 32) else c.

Fixpoint lower (s : string) : string :=
  match s with
  | EmptyString => EmptyString
  | String c r => String (lower_ascii c) (lower r)
  end.

(** [str.encode('utf-8')]: one to four octets per code point; the
    surrogates U+D800..U+DFFF (and anything outside U+0000..U+10FFFF)
    cannot be encoded. *)
Definition utf8_cont (c : Z) : Z := Z.lor 128 (Z.land c 63).

Definition utf8_code_point (c : Z) : option bytes :=
  if c <? 0 then None
  else if c <? 128 then Some [c]
  else if c <? 2048 then
    Some [Z.lor 192 (Z.shiftr c 6); utf8_cont c]
  else if (55296 <=? c) && (c <=? 57343) then None
  else if c <? 65536 then
    Some [Z.lor 224 (Z.shiftr c 12); utf8_cont (Z.shiftr c 6); utf8_cont c]
  else if c <? 1114112 then
    Some [Z.lor 240 (Z.shiftr c 18); utf8_cont (Z.shiftr c 12);
          utf8_cont (Z.shiftr c 6); utf8_cont c]
  else None.

Fixpoint utf8 (s : str) : option bytes :=
  match s with
  | [] => Some []
  | c :: r =>
      match utf8_code_point c, utf8 r with
      | Some b, Some bs => Some (b ++ bs)%list
      | _, _ => None
      end
  end.

Definition encode_utf8 {S} (s : str) : SE S bytes :=
  match utf8 s with
  | Some b => ret b
  | None => raise UnicodeEncodeError
  end.

(** The range of one element of a [bytes] object. *)
Definition octet (b : Z) : Prop := 0 <= b < 256.

(** What the callee reads through a [ctypes.c_char_p] argument: the
    octets of the [bytes] object followed by the terminating NUL. *)
Definition c_char_p (b : bytes) : bytes := (b ++ [0])%list.

(** The ctypes array [c_double * len(args)] filled from [args]: one
    array of [len(args)] doubles holding the arguments in their order. *)
Definition c_double_array (args : list c_double) : list c_double := args.

(** [float(result)] on a value that already is a [float]. *)
Definition float (r : c_double) : c_double := r.

(** [posixpath.join], the [os.path.join] of the POSIX hosts. *)
Definition starts_with_sep (s : string) : bool :=
  match s with
  | String "/" _ => true
  | _ => false
  end.

Fixpoint ends_with_sep (s : string) : bool :=
  match s with
  | EmptyString => false
  | String c EmptyString => Ascii.eqb c "/"
  | String _ r => ends_with_sep r
  end.

Fixpoint posixpath_join (a : string) (p : list string) : string :=
  match p with
  | [] => a
  | b :: r =>
      if starts_with_sep b then posixpath_join b r
      else if (String.eqb a "") || ends_with_sep a
           then posixpath_join (a ++ b) r
           else posixpath_join (a ++ "/" ++ b) r
  end.

Section Bridge.

(** The native engine is opaque: [E] is whatever state it keeps. *)
Variable E : Type.

(** ** Data model *)

(** A loaded library with its three bound entry points. [xdl_init]
    has result type [c_void_p] (a NULL result reads as [None], any
    other address as an integer); [xdl_call_function] takes the handle
    (NULL for [None]), the NUL-terminated name, the argument array
    (NULL for [None]) and the count, and yields a double. *)
Record CDLL : Type := mkCDLL {
  xdl_init : E -> option Z * E;
  xdl_cleanup : Z -> E -> E;
  xdl_call_function :
    option Z -> bytes -> option (list c_double) -> Z -> E -> c_double * E
}.

(** What the module asks of its host. *)
Record Host : Type := mkHost {
  platform_system : string;
  dirname_file : string;
  os_path_join : string -> list string -> string;
  os_path_exists : string -> bool;
  ctypes_CDLL : string -> exn + CDLL
}.

(** Everything the bridge does to the outside, in order. *)
Inductive event : Type :=
| ev_exists (path : string)
| ev_CDLL (path : string)
| ev_xdl_init
| ev_xdl_cleanup (h : Z)
| ev_xdl_call_function
    (h : option Z) (name : bytes) (c_args : option (list c_double)) (nargs : Z).

Record World : Type := mkWorld {
  engine : E;
  log : list event
}.

(** An [XdlContext] instance: each attribute is absent ([None]) until
    [__init__] assigns it; [_context] holds Python's [None] or the
    handle. *)
Record XdlContext : Type := mkXdlContext {
  lib : option CDLL;
  _context : option (option Z)
}.

Definition method (A : Type) : Type := SE (XdlContext * World) A.

(** The instance as [object.__new__] leaves it: no attribute set. *)
Definition blank : XdlContext := {| lib := None; _context := None |}.

Variable host : Host.

(** ** Interaction with the outside world *)

Definition emit (ev : event) (w : World) : World :=
  {| engine := engine w; log := (log w ++ [ev])%list |}.

Definition os_exists (path : string) : SE World bool :=
  fun w => (inr (os_path_exists host path), emit (ev_exists path) w).

Definition load_CDLL (path : string) : SE World CDLL :=
  fun w => (ctypes_CDLL host path, emit (ev_CDLL path) w).

Definition native_init (l : CDLL) : SE World (option Z) :=
  fun w =>
    let (h, e) := xdl_init l (engine w) in
    (inr h, emit ev_xdl_init {| engine := e; log := log w |}).

Definition native_cleanup (l : CDLL) (h : Z) : SE World unit :=
  fun w =>
    (inr tt,
     emit (ev_xdl_cleanup h)
          {| engine := xdl_cleanup l h (engine w); log := log w |}).

Definition native_call (l : CDLL) (h : option Z) (name : bytes)
    (c_args : option (list c_double)) (nargs : Z) : SE World c_double :=
  fun w =>
    let (r, e) := xdl_call_function l h (c_char_p name) c_args nargs (engine w) in
    (inr r,
     emit (ev_xdl_call_function h (c_char_p name) c_args nargs)
          {| engine := e; log := log w |}).

(** A world action run from inside a method leaves [self] alone. *)
Definition outside {A} (m : SE World A) : method A :=
  fun s => let (r, w) := m (snd s) in (r, (fst s, w)).

(** ** Attribute access on [self] *)

Definition hasattr__context : method bool :=
  gets (fun s => match _context (fst s) with Some _ => true | None => false end).

Definition self_lib : method CDLL :=
  fun s =>
    match lib (fst s) with
    | Some l => (inr l, s)
    | None => (inl (AttributeError "lib"), s)
    end.

Definition self__context : method (option Z) :=
  fun s =>
    match _context (fst s) with
    | Some c => (inr c, s)
    | None => (inl (AttributeError "_context"), s)
    end.

Definition set_self_lib (l : CDLL) : method unit :=
  modify (fun s => ({| lib := Some l; _context := _context (fst s) |}, snd s)).

Definition set_self__context (c : option Z) : method unit :=
  modify (fun s => ({| lib := lib (fst s); _context := Some c |}, snd s)).

(** ** [XdlContext._load_library] *)

(** The list built at lines 48-53. *)
Definition possible_paths (lib_name : string) : list string :=
  [ os_path_join host (dirname_file host)
      [".."; ".."; ".."; "target"; "debug"; lib_name];
    os_path_join host (dirname_file host)
      [".."; ".."; ".."; "target"; "release"; lib_name];
    "./" ++ lib_name;
    lib_name ].

(** The [for path in ...: if os.path.exists(path): ... break] loop with
    its [else] clause. *)
Fixpoint for_path (paths : list string) (orelse : method string) : method string :=
  match paths with
  | [] => orelse
  | path :: rest =>
      found <- outside (os_exists path) ;;
      if found then ret path else for_path rest orelse
  end.

(** Lines 65-71 declare the result and argument types of the three
    entry points; their effect is the typing of the fields of [CDLL]
    (NULL read as [None], the name passed as a C string, the result
    read as a double). A load that fails, or a library that lacks one
    of the symbols, is the exception answered by [ctypes_CDLL]. *)
Definition _load_library (lib_path : option string) : method CDLL :=
  lib_path <-
    match lib_path with
    | None =>
        let system := lower (platform_system host) in
        lib_name <-
          (if system =? "darwin" then ret "libxdl_ffi.dylib"
           else if system =? "linux" then ret "libxdl_ffi.so"
           else if system =? "windows" then ret "xdl_ffi.dll"
           else raise (RuntimeError [Lit "Unsupported platform: "; Fmt system]))%string ;;
        for_path (possible_paths lib_name)
          (raise (RuntimeError [Lit "Could not find XDL library. Tried: ";
                                FmtList (possible_paths lib_name)]))
    | Some given => ret given
    end ;;
  l <- outside (load_CDLL lib_path) ;;
  ret l.

(** ** [XdlContext._initialize], [__init__] and [__del__] *)

Definition _initialize : method unit :=
  l <- self_lib ;;
  h <- outside (native_init l) ;;
  set_self__context h ;;
  c <- self__context ;;
  match c with
  | None => raise (XdlError [Lit "Failed to initialize XDL context"])
  | Some _ => ret tt
  end.

Definition __init__ (lib_path : option string) : method unit :=
  l <- _load_library lib_path ;;
  set_self_lib l ;;
  set_self__context None ;;
  _initialize.

Definition __del__ : method unit :=
  has <- hasattr__context ;;
  if has then
    c <- self__context ;;
    match c with
    | Some h =>
        l <- self_lib ;;
        outside (native_cleanup l h)
    | None => ret tt
    end
  else ret tt.

(** ** [XdlContext.call_function] *)

(** The arguments are Python floats, as the signatures of [sin], [cos]
    and [sqrt] annotate them; the array of line 100 then holds them
    unchanged. What line 100 does to other scalars (an int is rounded
    to a double; an int too large, or a value that is no number, raises
    there, before the name is encoded) is outside this definition. *)
Definition call_function (name : str) (args : list c_double) : method c_double :=
  let (c_args, nargs) :=
    match args with
    | [] => (None, 0)
    | _ :: _ => (Some (c_double_array args), Z.of_nat (List.length args))
    end in
  name_bytes <- encode_utf8 name ;;
  l <- self_lib ;;
  h <- self__context ;;
  result <- outside (native_call l h name_bytes c_args nargs) ;;
  ret (float result).

(** ** Convenience functions *)

(** [XdlContext(lib_path)]: a blank instance on which [__init__] runs;
    when [__init__] raises, the caller never receives the instance. *)
Definition new_XdlContext (lib_path : option string) : SE World XdlContext :=
  fun w =>
    match __init__ lib_path (blank, w) with
    | (inl e, (_, w')) => (inl e, w')
    | (inr _, (ctx, w')) => (inr ctx, w')
    end.

(** [return ctx.m(...)] as the last use of the local [ctx]. When the
    call returns, the frame gives up the only reference to the
    instance and CPython runs its finaliser [__del__] on the spot; an
    exception raised by a finaliser is reported and dropped, never
    propagated. When the call raises, the traceback keeps the frame,
    and with it the instance, alive past the function. *)
Definition invoke {A} (ctx : XdlContext) (m : method A) : SE World A :=
  fun w =>
    match m (ctx, w) with
    | (inr a, s) => let (_, s') := __del__ s in (inr a, snd s')
    | (inl e, s) => (inl e, snd s)
    end.

Definition sin (x : c_double) : SE World c_double :=
  ctx <- new_XdlContext None ;;
  invoke ctx (call_function (str_of_string "sin") [x]).

Definition cos (x : c_double) : SE World c_double :=
  ctx <- new_XdlContext None ;;
  invoke ctx (call_function (str_of_string "cos") [x]).

Definition sqrt (x : c_double) : SE World c_double :=
  ctx <- new_XdlContext None ;;
  invoke ctx (call_function (str_of_string "sqrt") [x]).

End Bridge.

Arguments mkCDLL {E}.
Arguments mkHost {E}.
Arguments mkWorld {E}.
Arguments mkXdlContext {E}.
Arguments blank {E}.
Arguments engine {E}.
Arguments log {E}.
Arguments lib {E}.
Arguments _context {E}.
Arguments xdl_init {E}.
Arguments xdl_cleanup {E}.
Arguments xdl_call_function {E}.
Arguments platform_system {E}.
Arguments dirname_file {E}.
Arguments os_path_join {E}.
Arguments os_path_exists {E}.
Arguments ctypes_CDLL {E}.
Arguments emit {E}.
Arguments os_exists {E}.
Arguments load_CDLL {E}.
Arguments native_init {E}.
Arguments native_cleanup {E}.
Arguments native_call {E}.
Arguments outside {E A}.
Arguments hasattr__context {E}.
Arguments self_lib {E}.
Arguments self__context {E}.
Arguments set_self_lib {E}.
Arguments set_self__context {E}.
Arguments possible_paths {E}.
Arguments for_path {E}.
Arguments _load_library {E}.
Arguments _initialize {E}.
Arguments __init__ {E}.
Arguments __del__ {E}.
Arguments call_function {E}.
Arguments new_XdlContext {E}.
Arguments invoke {E A}.
Arguments sin {E}.
Arguments cos {E}.
Arguments sqrt {E}.

(** ** Reading the log *)

Definition is_init (ev : event) : bool :=
  match ev with ev_xdl_init => true | _ => false end.

Definition is_cleanup (ev : event) : bool :=
  match ev with ev_xdl_cleanup _ => true | _ => false end.

Definition is_call (ev : event) : bool :=
  match ev with ev_xdl_call_function _ _ _ _ => true | _ => false end.

Definition count (p : event -> bool) (l : list event) : nat :=
  List.length (filter p l).

Definition inits := count is_init.
Definition cleanups := count is_cleanup.
Definition calls := count is_call.

(** [__del__] run [n] times in a row on the same instance. *)
Fixpoint destroy {E : Type} (n : nat) : method E unit :=
  match n with
  | O => ret tt
  | S k => __del__ ;; destroy k
  end.

(** The paths the search loop asks about: up to and including the
    first that exists. *)
Fixpoint probed (exists_ : string -> bool) (paths : list string) : list string :=
  match paths with
  | [] => []
  | p :: r => if exists_ p then [p] else p :: probed exists_ r
  end.

(** ** Vocabulary of the statements *)

Section Vocabulary.

Context {E : Type}.
Variable host : Host E.

Implicit Types (w : World E) (l : CDLL E).

(** The pointer and the count handed to the native call. *)
Definition c_args_of (args : list c_double) : option (list c_double) :=
  match args with [] => None | _ :: _ => Some args end.

Definition nargs_of (args : list c_double) : Z :=
  match args with [] => 0 | _ :: _ => Z.of_nat (List.length args) end.

Definition call_event (h : option Z) (nb : bytes) (args : list c_double) : event :=
  ev_xdl_call_function h (c_char_p nb) (c_args_of args) (nargs_of args).

Definition call_outcome l (h : option Z) (nb : bytes) (args : list c_double) w
  : c_double * E :=
  xdl_call_function l h (c_char_p nb) (c_args_of args) (nargs_of args) (engine w).

(** The engine after [n] cleanups of the same handle. *)
Fixpoint cleanup_n l (h : Z) (n : nat) (e : E) : E :=
  match n with
  | O => e
  | S k => cleanup_n l h k (xdl_cleanup l h e)
  end.

(** Lines 38-43: the file name chosen for each recognised system. *)
Definition naming : list (string * string) :=
  [ ("darwin", "libxdl_ffi.dylib");
    ("linux", "libxdl_ffi.so");
    ("windows", "xdl_ffi.dll") ].

Definition not_found (lib_name : string) : exn :=
  RuntimeError [Lit "Could not find XDL library. Tried: ";
                FmtList (possible_paths host lib_name)].

Definition unsupported (system : string) : exn :=
  RuntimeError [Lit "Unsupported platform: "; Fmt system].

Definition asked (paths : list string) w : World E :=
  {| engine := engine w; log := (log w ++ map ev_exists paths)%list |}.

Definition init_failed : exn := XdlError [Lit "Failed to initialize XDL context"].

Definition after_init l w : World E :=
  emit ev_xdl_init {| engine := snd (xdl_init l (engine w)); log := log w |}.

Definition init_result (h : option Z) : exn + unit :=
  match h with
  | None => inl init_failed
  | Some _ => inr tt
  end.

End Vocabulary.

(** ** A native stub

    The engine state of the stub is the number of handles it has given
    out; [xdl_call_function] answers with its first argument, or NaN
    when it is handed the NULL array. *)

Module Stub.

Definition stub_lib : CDLL nat :=
  mkCDLL
    (fun e => (Some (4096 + Z.of_nat e), S e))
    (fun _ e => e)
    (fun _ _ c_args _ e =>
       (match c_args with Some (x :: _) => x | _ => S754_nan end, e)).

(** A library whose [xdl_init] reports failure. *)
Definition failing_lib : CDLL nat :=
  mkCDLL
    (fun e => (None, e))
    (fun _ e => e)
    (fun _ _ _ _ e => (S754_nan, e)).

Definition here : string := "/opt/xdl/examples/embedding/python".

Definition release_so : string :=
  "/opt/xdl/examples/embedding/python/../../../target/release/libxdl_ffi.so".

Definition bad_so : string := "/opt/bad/libxdl_ffi.so".

(** A Linux host with only the release build on disk. *)
Definition linux_host : Host nat :=
  mkHost "Linux" here posixpath_join
    (fun p => p =? release_so)%string
    (fun p => if (p =? bad_so)%string
              then inr failing_lib else inr stub_lib).

(** The same host with no build on disk at all. *)
Definition bare_host : Host nat :=
  mkHost "Linux" here posixpath_join (fun _ => false) (fun p => inl (OSError p)).

(** A host whose operating system the module does not know. *)
Definition plan9_host : Host nat :=
  mkHost "Plan9" here posixpath_join (fun _ => true) (fun _ => inr stub_lib).

Definition w0 : World nat := mkWorld 0%nat [].

Definition one : c_double := S754_finite false 1 0.
Definition inf : c_double := S754_infinity false.

(** A live context of the stub library, as construction leaves it. *)
Definition active : XdlContext nat :=
  {| lib := Some stub_lib; _context := Some (Some 4096) |}.

End Stub.

(** ** Clients of one instance

    A client holds one instance and uses it any number of times, each
    use a [call_function] or a run of [__del__]. *)

Inductive use : Type :=
| use_call (name : str) (args : list c_double)
| use_del.

Fixpoint uses {E : Type} (us : list use) : method E unit :=
  match us with
  | [] => ret tt
  | use_call name args :: r => call_function name args ;; uses r
  | use_del :: r => __del__ ;; uses r
  end.

Definition use_encodable (u : use) : Prop :=
  match u with
  | use_call name _ => utf8 name <> None
  | use_del => True
  end.

(** The native invocation that one use makes on a context holding
    handle [h]: the marshaled call, or the cleanup. *)
Definition use_event (h : Z) (u : use) : option event :=
  match u with
  | use_call name args =>
      match utf8 name with
      | Some nb =>
          Some (ev_xdl_call_function (Some h) (nb ++ [0])%list
                  match args with [] => None | _ :: _ => Some args end
                  match args with [] => 0 | _ :: _ => Z.of_nat (List.length args) end)
      | None => None
      end
  | use_del => Some (ev_xdl_cleanup h)
  end.

(** The handle argument of a native event, if it has one. *)
Definition handle_of (ev : event) : option (option Z) :=
  match ev with
  | ev_xdl_cleanup h => Some (Some h)
  | ev_xdl_call_function h _ _ _ => Some h
  | _ => None
  end.

Definition is_exists (ev : event) : bool :=
  match ev with ev_exists _ => true | _ => false end.

Definition is_load (ev : event) : bool :=
  match ev with ev_CDLL _ => true | _ => false end.

(** What a C callee reads from a [char*]: the octets before the first
    NUL. *)
Fixpoint c_string (mem : bytes) : bytes :=
  match mem with
  | [] => []
  | b :: r => if b =? 0 then [] else b :: c_string r
  end.

(** A native call as the entry's signature expects it: the name is
    octets closed by a NUL, and the array pointer is null exactly when
    the count is zero, the count otherwise being the length of the
    array. *)
Definition well_formed_call (ev : event) : Prop :=
  match ev with
  | ev_xdl_call_function _ mem c_args nargs =>
      Forall octet mem /\
      (exists b, mem = (b ++ [0])%list) /\
      match c_args with
      | None => nargs = 0
      | Some buffer => nargs = Z.of_nat (List.length buffer) /\ 0 < nargs
      end
  | _ => True
  end.

(** A path segment that [posixpath.join] appends after one separator:
    not empty, not absolute, no trailing separator. *)
Definition plain_segment (b : string) : bool :=
  negb (String.eqb b "") && negb (starts_with_sep b) && negb (ends_with_sep b).

(** The directory part in front of the joined segments. *)
Definition posix_base (dir : string) : string :=
  if (String.eqb dir "") || ends_with_sep dir then dir else (dir ++ "/")%string.

(** ** More stub hosts *)

Definition debug_dylib : string :=
  "/opt/xdl/examples/embedding/python/../../../target/debug/libxdl_ffi.dylib".

(** A macOS host with every build on disk, whose debug build the
    loader rejects. *)
Definition broken_debug_host : Host nat :=
  mkHost "Darwin" Stub.here posixpath_join (fun _ => true)
    (fun p => if (p =? debug_dylib)%string
              then inl (OSError p) else inr Stub.stub_lib).

Definition usr_lib_so : string := "/usr/lib/libxdl_ffi.so".

Definition debug_so : string :=
  "/opt/xdl/examples/embedding/python/../../../target/debug/libxdl_ffi.so".

(** What a client might do with one instance. *)
Definition session : list use :=
  [ use_call (str_of_string "sin") [Stub.one];
    use_del;
    use_call (str_of_string "cos") [Stub.inf; Stub.one];
    use_del ].

(** * Properties *)

(** ** The monad *)

Lemma bind_ret {S A B} (a : A) (k : A -> SE S B) (s : S) :
  bind (ret a) k s = k a s.
Proof. reflexivity. Qed.

Lemma bind_raise {S A B} (e : exn) (k : A -> SE S B) (s : S) :
  bind (raise e) k s = (inl e, s).
Proof. reflexivity. Qed.

Lemma bind_bind {S A B C} (m : SE S A) (f : A -> SE S B) (g : B -> SE S C) (s : S) :
  bind (bind m f) g s = bind m (fun a => bind (f a) g) s.
Proof. unfold bind. destruct (m s) as [[e|a] s']; reflexivity. Qed.

(** ** UTF-8

    Every element of an encoding is an octet, and ASCII text encodes
    to itself. *)

Lemma lor_octet (a b : Z) : octet a -> octet b -> octet (Z.lor a b).
Proof.
  unfold octet. intros Ha Hb.
  assert (H0 : 0 <= Z.lor a b) by (apply Z.lor_nonneg; lia).
  split; [exact H0|].
  destruct (Z.eq_dec (Z.lor a b) 0) as [->|Hnz]; [lia|].
  change 256 with (2 ^ 8). apply Z.log2_lt_pow2; [lia|].
  rewrite Z.log2_lor by lia.
  assert (Hl : forall x, 0 <= x < 256 -> Z.log2 x < 8).
  { intros x Hx. destruct (Z.eq_dec x 0) as [->|Hx0]; [reflexivity|].
    apply Z.log2_lt_pow2; [lia|]. change (2 ^ 8) with 256. lia. }
  apply Z.max_lub_lt; apply Hl; lia.
Qed.

Lemma utf8_cont_octet (c : Z) : octet (utf8_cont c).
Proof.
  unfold utf8_cont. apply lor_octet; [unfold octet; lia|].
  change 63 with (Z.ones 6). rewrite Z.land_ones by lia.
  unfold octet. change (2 ^ 6) with 64.
  pose proof (Z.mod_pos_bound c 64). lia.
Qed.

Lemma some_eq {A} (a b : A) : Some a = Some b -> a = b.
Proof. congruence. Qed.

Ltac octets :=
  let Heq := fresh in
  intros Heq; apply some_eq in Heq; rewrite <- Heq;
  repeat apply Forall_cons; try apply Forall_nil; try apply utf8_cont_octet.

Lemma shiftr_octet (c n k : Z) :
  0 <= c < 2 ^ n * k -> 0 <= n -> 0 < k <= 64 -> octet (Z.shiftr c n).
Proof.
  intros Hc Hn Hk. unfold octet. rewrite Z.shiftr_div_pow2 by lia.
  assert (0 < 2 ^ n) by (apply Z.pow_pos_nonneg; lia).
  split; [apply Z.div_pos; lia|].
  apply Z.div_lt_upper_bound; nia.
Qed.

Lemma utf8_code_point_octets (c : Z) (b : bytes) :
  utf8_code_point c = Some b -> Forall octet b.
Proof.
  unfold utf8_code_point.
  destruct (Z.ltb_spec c 0); [discriminate|].
  destruct (Z.ltb_spec c 128).
  { octets. unfold octet. lia. }
  destruct (Z.ltb_spec c 2048).
  { octets. apply lor_octet; [unfold octet; lia|].
    apply shiftr_octet with (k := 32); lia. }
  destruct ((55296 <=? c) && (c <=? 57343)); [discriminate|].
  destruct (Z.ltb_spec c 65536).
  { octets. apply lor_octet; [unfold octet; lia|].
    apply shiftr_octet with (k := 16); lia. }
  destruct (Z.ltb_spec c 1114112); [|discriminate].
  octets. apply lor_octet; [unfold octet; lia|].
  apply shiftr_octet with (k := 8); lia.
Qed.

Lemma utf8_octets (s : str) (b : bytes) : utf8 s = Some b -> Forall octet b.
Proof.
  revert b. induction s as [|c r IH]; cbn; intros b.
  - intros [= <-]. constructor.
  - destruct (utf8_code_point c) as [hd|] eqn:Hc; [|discriminate].
    destruct (utf8 r) as [tl|]; [|discriminate].
    intros Heq. apply some_eq in Heq. rewrite <- Heq.
    apply Forall_app. split; [|now apply IH].
    now apply utf8_code_point_octets with (c := c).
Qed.

Lemma utf8_ascii (s : str) : Forall (fun c => 0 <= c < 128) s -> utf8 s = Some s.
Proof.
  induction 1 as [|c r Hc _ IH]; [reflexivity|].
  cbn. rewrite IH. unfold utf8_code_point.
  destruct (Z.ltb_spec c 0); [lia|].
  destruct (Z.ltb_spec c 128); [reflexivity|lia].
Qed.

Section Facts.

Context {E : Type}.
Variable host : Host E.

Implicit Types (w : World E) (ctx : XdlContext E) (l : CDLL E).

(** ** The log *)

Lemma count_app (p : event -> bool) (a b : list event) :
  count p (a ++ b) = (count p a + count p b)%nat.
Proof. unfold count. now rewrite filter_app, length_app. Qed.

Lemma log_emit ev w : log (emit ev w) = (log w ++ [ev])%list.
Proof. reflexivity. Qed.

Lemma engine_emit ev w : engine (emit ev w) = engine w.
Proof. reflexivity. Qed.

(** ** [call_function], step by step *)

Lemma call_function_run ctx l h name nb args w :
  lib ctx = Some l ->
  _context ctx = Some h ->
  utf8 name = Some nb ->
  call_function name args (ctx, w) =
    (inr (fst (call_outcome l h nb args w)),
     (ctx, emit (call_event h nb args)
                {| engine := snd (call_outcome l h nb args w); log := log w |})).
Proof.
  intros Hl Hc Hn.
  unfold call_function, call_outcome, call_event, c_args_of, nargs_of.
  destruct args as [|a r];
    unfold bind, encode_utf8, self_lib, self__context, outside, native_call,
      ret, float, c_double_array;
    rewrite Hn; cbn [fst snd]; rewrite Hl; cbn [fst snd];
    rewrite Hc; cbn [fst snd];
    match goal with
    | |- context [xdl_call_function ?a ?b ?c ?d ?e ?f] =>
        destruct (xdl_call_function a b c d e f)
    end; reflexivity.
Qed.

(** [call_function] never assigns to [self], whatever happens. *)
Lemma call_function_self ctx name args w :
  fst (snd (call_function name args (ctx, w))) = ctx.
Proof.
  unfold call_function.
  destruct args as [|a r];
    unfold bind, encode_utf8, self_lib, self__context, outside, native_call,
      ret, raise;
    (destruct (utf8 name); [|reflexivity]);
    cbn [fst snd];
    (destruct (lib ctx); [|reflexivity]);
    cbn [fst snd];
    (destruct (_context ctx); [|reflexivity]);
    cbn [fst snd];
    match goal with
    | |- context [xdl_call_function ?a ?b ?c ?d ?e ?f] =>
        destruct (xdl_call_function a b c d e f)
    end; reflexivity.
Qed.

(** ** [__del__], step by step *)

Lemma del_holding ctx l h w :
  lib ctx = Some l ->
  _context ctx = Some (Some h) ->
  __del__ (ctx, w) =
    (inr tt,
     (ctx, emit (ev_xdl_cleanup h)
                {| engine := xdl_cleanup l h (engine w); log := log w |})).
Proof.
  intros Hl Hc.
  unfold __del__, bind, hasattr__context, gets, self__context, self_lib,
    outside, native_cleanup.
  repeat (progress (cbn [fst snd]; rewrite ?Hc, ?Hl)). reflexivity.
Qed.

Lemma del_idle ctx w :
  _context ctx = None \/ _context ctx = Some None ->
  __del__ (ctx, w) = (inr tt, (ctx, w)).
Proof.
  intros [Hc|Hc];
    unfold __del__, bind, hasattr__context, gets, self__context, ret;
    repeat (progress (cbn [fst snd]; rewrite ?Hc)); reflexivity.
Qed.

Lemma destroy_holding ctx l h n w :
  lib ctx = Some l ->
  _context ctx = Some (Some h) ->
  destroy n (ctx, w) =
    (inr tt,
     (ctx, {| engine := cleanup_n l h n (engine w);
              log := (log w ++ repeat (ev_xdl_cleanup h) n)%list |})).
Proof.
  intros Hl Hc. revert w.
  induction n as [|n IH]; intros w.
  - cbn. rewrite app_nil_r. now destruct w.
  - cbn [destroy]. unfold bind at 1.
    rewrite (del_holding ctx l h w Hl Hc), IH.
    cbn [engine log emit cleanup_n repeat].
    now rewrite <- app_assoc.
Qed.

Lemma count_repeat_cleanup (h : Z) n :
  cleanups (repeat (ev_xdl_cleanup h) n) = n.
Proof.
  unfold cleanups, count.
  induction n as [|n IH]; cbn; [reflexivity | now rewrite IH].
Qed.

(** ** [_load_library], step by step *)

Lemma asked_nil w : asked [] w = w.
Proof. unfold asked. cbn. rewrite app_nil_r. now destruct w. Qed.

Lemma asked_cons p r w : asked (p :: r) w = asked r (emit (ev_exists p) w).
Proof. unfold asked, emit. cbn. now rewrite <- app_assoc. Qed.

Lemma for_path_run paths orelse ctx w :
  for_path host paths orelse (ctx, w) =
    match find (os_path_exists host) paths with
    | Some p => (inr p, (ctx, asked (probed (os_path_exists host) paths) w))
    | None => orelse (ctx, asked paths w)
    end.
Proof.
  revert w. induction paths as [|p r IH]; intros w.
  - cbn. now rewrite asked_nil.
  - cbn [for_path find probed]. unfold bind at 1, outside, os_exists.
    cbn [fst snd].
    destruct (os_path_exists host p).
    + rewrite asked_cons, asked_nil. reflexivity.
    + rewrite IH, !asked_cons. reflexivity.
Qed.

Lemma load_explicit given ctx w :
  _load_library host (Some given) (ctx, w) =
    (ctypes_CDLL host given, (ctx, emit (ev_CDLL given) w)).
Proof.
  unfold _load_library, bind, ret, outside, load_CDLL. cbn [fst snd].
  now destruct (ctypes_CDLL host given).
Qed.

Lemma load_unsupported ctx w :
  ~ In (lower (platform_system host)) (map fst naming) ->
  _load_library host None (ctx, w) =
    (inl (unsupported (lower (platform_system host))), (ctx, w)).
Proof.
  cbn [naming map fst In]. intros Hn.
  unfold _load_library, unsupported.
  set (system := lower (platform_system host)) in *.
  destruct (String.eqb_spec system "darwin") as [->|_]; [tauto|].
  destruct (String.eqb_spec system "linux") as [->|_]; [tauto|].
  destruct (String.eqb_spec system "windows") as [->|_]; [tauto|].
  reflexivity.
Qed.

Lemma load_search lib_name ctx w :
  In (lower (platform_system host), lib_name) naming ->
  _load_library host None (ctx, w) =
    match find (os_path_exists host) (possible_paths host lib_name) with
    | Some p =>
        (ctypes_CDLL host p,
         (ctx, emit (ev_CDLL p)
                    (asked (probed (os_path_exists host)
                                   (possible_paths host lib_name)) w)))
    | None => (inl (not_found host lib_name), (ctx, asked (possible_paths host lib_name) w))
    end.
Proof.
  intros Hin. unfold _load_library, not_found.
  remember (lower (platform_system host)) as system eqn:Hsys. clear Hsys.
  cbn [naming In] in Hin.
  destruct Hin as [H|[H|[H|[]]]]; injection H as Hs Hn; subst system lib_name;
    cbn [String.eqb Ascii.eqb Bool.eqb];
    rewrite bind_bind, bind_ret; unfold bind at 1;
    rewrite for_path_run;
    (destruct (find _ _); [|reflexivity]);
    unfold bind, ret, outside, load_CDLL; cbn [fst snd];
    match goal with |- context [ctypes_CDLL host ?p] =>
      destruct (ctypes_CDLL host p) end; reflexivity.
Qed.

(** The search stops at the first candidate that exists. *)
Lemma find_first (f : string -> bool) (paths : list string) (p : string) :
  find f paths = Some p ->
  exists before after,
    paths = (before ++ p :: after)%list /\
    Forall (fun q => f q = false) before /\
    f p = true /\
    probed f paths = (before ++ [p])%list.
Proof.
  induction paths as [|q r IH]; cbn; [discriminate|].
  destruct (f q) eqn:Hq.
  - intros [= <-]. exists [], r. repeat split; auto.
  - intros Hf. destruct (IH Hf) as (b & a & -> & Hb & Hp & Hpr).
    exists (q :: b), a. cbn. rewrite Hpr. repeat split; auto.
Qed.

Lemma count_asked (p : event -> bool) (paths : list string) :
  (forall q, p (ev_exists q) = false) -> count p (map ev_exists paths) = 0%nat.
Proof.
  intros Hp. unfold count.
  induction paths as [|q r IH]; cbn; [reflexivity|]. now rewrite Hp.
Qed.

(** [_load_library] touches neither [self] nor the engine, and calls
    no native entry point. *)
Lemma load_frame lib_path ctx w :
  exists evs,
    snd (_load_library host lib_path (ctx, w)) =
      (ctx, {| engine := engine w; log := (log w ++ evs)%list |}) /\
    inits evs = 0%nat /\ cleanups evs = 0%nat /\ calls evs = 0%nat.
Proof.
  destruct lib_path as [given|].
  - rewrite load_explicit. exists [ev_CDLL given]. now cbn.
  - destruct (in_dec string_dec (lower (platform_system host)) (map fst naming))
      as [Hin|Hout].
    + apply in_map_iff in Hin. destruct Hin as ([sys lib_name] & Hsys & Hin).
      cbn in Hsys. subst sys. rewrite (load_search lib_name ctx w Hin).
      destruct (find _ _) as [p|].
      * exists (map ev_exists (probed (os_path_exists host)
                                   (possible_paths host lib_name)) ++ [ev_CDLL p])%list.
        unfold inits, cleanups, calls. rewrite !count_app, !count_asked by reflexivity.
        cbn. rewrite app_assoc. now repeat split.
      * exists (map ev_exists (possible_paths host lib_name)).
        unfold inits, cleanups, calls. rewrite !count_asked by reflexivity.
        now cbn.
    + rewrite (load_unsupported ctx w Hout). exists []. cbn.
      rewrite app_nil_r. now destruct w.
Qed.

(** ** [_initialize] and [__init__], step by step *)

Lemma initialize_run ctx l w :
  lib ctx = Some l ->
  _initialize (ctx, w) =
    (init_result (fst (xdl_init l (engine w))),
     ({| lib := Some l; _context := Some (fst (xdl_init l (engine w))) |},
      after_init l w)).
Proof.
  intros Hl.
  unfold _initialize, bind, self_lib, outside, native_init, set_self__context,
    modify, self__context, init_result, init_failed, after_init, ret, raise.
  cbn [fst snd]. rewrite Hl. cbn [fst snd].
  destruct (xdl_init l (engine w)) as [h e]. cbn [fst snd _context lib].
  rewrite Hl. now destruct h.
Qed.

Lemma init_run lib_path ctx w l s :
  _load_library host lib_path (ctx, w) = (inr l, s) ->
  __init__ host lib_path (ctx, w) =
    (init_result (fst (xdl_init l (engine (snd s)))),
     ({| lib := Some l; _context := Some (fst (xdl_init l (engine (snd s)))) |},
      after_init l (snd s))).
Proof.
  intros Hload. unfold __init__. unfold bind at 1. rewrite Hload.
  unfold bind at 1, set_self_lib, modify. unfold bind at 1, set_self__context, modify.
  cbn [fst snd lib _context].
  now rewrite initialize_run with (l := l).
Qed.

Lemma init_load_fails lib_path ctx w e s :
  _load_library host lib_path (ctx, w) = (inl e, s) ->
  __init__ host lib_path (ctx, w) = (inl e, s).
Proof. intros Hload. unfold __init__. unfold bind at 1. now rewrite Hload. Qed.

Lemma destroy_idle ctx n w :
  _context ctx = None \/ _context ctx = Some None ->
  destroy n (ctx, w) = (inr tt, (ctx, w)).
Proof.
  intros Hc. induction n as [|n IH]; [reflexivity|].
  cbn [destroy]. unfold bind at 1. now rewrite del_idle.
Qed.

(** However often [__del__] has run, [self] is as it was and no call
    was made. *)
Lemma destroy_frame ctx l h n w :
  lib ctx = Some l ->
  _context ctx = Some h ->
  exists w',
    destroy n (ctx, w) = (inr tt, (ctx, w')) /\
    calls (log w') = calls (log w) /\
    cleanups (log w') =
      (cleanups (log w) + match h with Some _ => n | None => 0 end)%nat.
Proof.
  intros Hl Hc. destruct h as [h|].
  - rewrite (destroy_holding ctx l h n w Hl Hc). eexists. split; [reflexivity|].
    cbn [log]. unfold calls, cleanups. rewrite !count_app.
    fold (cleanups (repeat (ev_xdl_cleanup h) n)). rewrite count_repeat_cleanup.
    split; [|reflexivity].
    assert (Hz : count is_call (repeat (ev_xdl_cleanup h) n) = 0%nat).
    { unfold count. induction n as [|n IH]; [reflexivity | exact IH]. }
    rewrite Hz. lia.
  - rewrite destroy_idle by auto. exists w. repeat split; lia.
Qed.

(** ** The call protocol *)


(** C8. The value of [call_function] is the double the native call
    entry returned, untouched, and the invocation makes exactly one
    native call: the log grows by that one event and the engine is
    stepped once. *)
Theorem call_function_result_verbatim ctx l h name nb args w :
  lib ctx = Some l ->
  _context ctx = Some h ->
  utf8 name = Some nb ->
  exists c_args nargs w',
    let native := xdl_call_function l h (nb ++ [0])%list c_args nargs (engine w) in
    call_function name args (ctx, w) = (inr (fst native), (ctx, w')) /\
    engine w' = snd native /\
    log w' = (log w ++ [ev_xdl_call_function h (nb ++ [0]) c_args nargs])%list /\
    calls (log w') = (calls (log w) + 1)%nat.
Proof.
  intros Hl Hc Hn.
  exists (c_args_of args), (nargs_of args). eexists.
  split; [apply (call_function_run ctx l h name nb args w Hl Hc Hn)|].
  cbn [engine log emit]. repeat split.
  unfold calls. now rewrite count_app.
Qed.

(** C10. [call_function] leaves the receiver as it found it: the
    stored handle and the bound library are the same after the call,
    for every name, argument list and outcome. *)
Theorem call_function_frame ctx name args w :
  let ctx' := fst (snd (call_function name args (ctx, w))) in
  lib ctx' = lib ctx /\ _context ctx' = _context ctx.
Proof. cbn zeta. now rewrite call_function_self. Qed.

(** C1, as the source has it. [call_function] checks no life-cycle
    state. Take a context whose library is bound and whose [_context]
    is [h]: a handle, possibly stale because [__del__] has already run
    [n] times (each run a cleanup, the handle still stored), or [None]
    after a failed initialisation (where [__del__] does nothing). A
    call through it with float arguments and an encodable name is not
    refused: it makes exactly one native call, on the stored [h], with
    the marshaled name and arguments, in the world the destructions
    left, and its value is the double that very call returned. *)
Theorem call_function_checks_no_state ctx l h name nb args n w :
  lib ctx = Some l ->
  _context ctx = Some h ->
  utf8 name = Some nb ->
  let w1 :=
    match h with
    | Some h0 =>
        {| engine := cleanup_n l h0 n (engine w);
           log := (log w ++ repeat (ev_xdl_cleanup h0) n)%list |}
    | None => w
    end in
  let c_args := match args with [] => None | _ :: _ => Some args end in
  let nargs := match args with [] => 0 | _ :: _ => Z.of_nat (List.length args) end in
  let native := xdl_call_function l h (nb ++ [0])%list c_args nargs (engine w1) in
  destroy n (ctx, w) = (inr tt, (ctx, w1)) /\
  call_function name args (ctx, w1) =
    (inr (fst native),
     (ctx, {| engine := snd native;
              log := (log w1 ++ [ev_xdl_call_function h (nb ++ [0]) c_args nargs])%list |})).
Proof.
  intros Hl Hc Hn. cbv zeta. split.
  - destruct h as [h0|].
    + exact (destroy_holding ctx l h0 n w Hl Hc).
    + apply destroy_idle. now right.
  - rewrite (call_function_run ctx l h name nb args _ Hl Hc Hn). reflexivity.
Qed.

(** ** Destruction *)


(** ** Library discovery *)

(** C4. With no explicit path and a system that is none of darwin,
    linux and windows, [_load_library] raises the unsupported-platform
    error at once: the world is untouched, so no candidate was asked
    about and nothing was loaded; construction fails the same way. *)
Theorem unsupported_platform_fails_first ctx w :
  ~ In (lower (platform_system host)) ["darwin"; "linux"; "windows"] ->
  _load_library host None (ctx, w) =
    (inl (RuntimeError [Lit "Unsupported platform: ";
                        Fmt (lower (platform_system host))]),
     (ctx, w)) /\
  new_XdlContext host None w =
    (inl (RuntimeError [Lit "Unsupported platform: ";
                        Fmt (lower (platform_system host))]),
     w).
Proof.
  intros Hn.
  assert (Hl := load_unsupported blank w Hn).
  split; [exact (load_unsupported ctx w Hn)|].
  unfold new_XdlContext. now rewrite (init_load_fails _ _ _ _ _ Hl).
Qed.

(** C5. On a recognised system the candidates are, in this order, the
    debug build, the release build, the working directory and the bare
    name. When none exists the search fails with the error that carries
    exactly that list, after asking about each in order and loading
    nothing; otherwise the first that exists is the one handed to the
    loader, and nothing after it is asked about. *)
Theorem candidate_search_order lib_name ctx w :
  In (lower (platform_system host), lib_name) naming ->
  let dir := dirname_file host in
  let debug := os_path_join host dir [".."; ".."; ".."; "target"; "debug"; lib_name] in
  let release := os_path_join host dir [".."; ".."; ".."; "target"; "release"; lib_name] in
  let candidates := [debug; release; ("./" ++ lib_name)%string; lib_name] in
  match find (os_path_exists host) candidates with
  | None =>
      _load_library host None (ctx, w) =
        (inl (RuntimeError [Lit "Could not find XDL library. Tried: ";
                            FmtList candidates]),
         (ctx, {| engine := engine w;
                  log := (log w ++ map ev_exists candidates)%list |}))
  | Some p =>
      exists before after,
        candidates = (before ++ p :: after)%list /\
        Forall (fun q => os_path_exists host q = false) before /\
        os_path_exists host p = true /\
        _load_library host None (ctx, w) =
          (ctypes_CDLL host p,
           (ctx, {| engine := engine w;
                    log := (log w ++ map ev_exists (before ++ [p]) ++ [ev_CDLL p])%list |}))
  end.
Proof.
  intros Hin dir debug release candidates.
  rewrite (load_search lib_name ctx w Hin).
  change (possible_paths host lib_name) with candidates.
  destruct (find (os_path_exists host) candidates) as [p|] eqn:Hfind.
  - destruct (find_first _ _ _ Hfind) as (b & a & Hsplit & Hb & Hp & Hpr).
    exists b, a. rewrite Hpr. repeat split; auto.
    unfold emit, asked. cbn [engine log]. now rewrite <- app_assoc.
  - reflexivity.
Qed.

(** ** Construction *)

(** C6. When the library loads and its [xdl_init] returns the null
    sentinel, [__init__] raises [XdlError] ("Failed to initialize XDL
    context"), the caller of the constructor receives that error, and
    the instance is left with the library bound and [_context] set to
    [None]: no handle is referenced. *)
Theorem failed_init_raises lib_path w l s :
  _load_library host lib_path (blank, w) = (inr l, s) ->
  fst (xdl_init l (engine (snd s))) = None ->
  exists w',
    __init__ host lib_path (blank, w) =
      (inl (XdlError [Lit "Failed to initialize XDL context"]),
       ({| lib := Some l; _context := Some None |}, w')) /\
    new_XdlContext host lib_path w =
      (inl (XdlError [Lit "Failed to initialize XDL context"]), w') /\
    cleanups (log w') = cleanups (log w) /\
    calls (log w') = calls (log w).
Proof.
  intros Hload Hnull.
  assert (Hrun := init_run lib_path blank w l s Hload).
  rewrite Hnull in Hrun. cbn [init_result] in Hrun.
  exists (after_init l (snd s)). split; [exact Hrun|].
  split; [unfold new_XdlContext; now rewrite Hrun|].
  destruct (load_frame lib_path blank w) as (evs & Hs & _ & Hcl & Hca).
  rewrite Hload in Hs. cbn [snd] in Hs. rewrite Hs.
  unfold after_init, emit, cleanups, calls in *. cbn [snd log].
  rewrite !count_app, Hcl, Hca. cbn. lia.
Qed.

(** C7. After a construction that failed because [xdl_init] returned
    the null sentinel, the instance references no handle, and running
    [__del__] on it, once or [n] times, changes nothing: the native
    cleanup entry is not invoked. *)
Theorem destroy_after_failed_init lib_path w l s n :
  _load_library host lib_path (blank, w) = (inr l, s) ->
  fst (xdl_init l (engine (snd s))) = None ->
  let failed := snd (__init__ host lib_path (blank, w)) in
  _context (fst failed) = Some None /\
  __del__ failed = (inr tt, failed) /\
  destroy n failed = (inr tt, failed) /\
  cleanups (log (snd (snd (destroy n failed)))) = cleanups (log (snd failed)).
Proof.
  intros Hload Hnull failed. subst failed.
  rewrite (init_run lib_path blank w l s Hload), Hnull. cbn [snd fst _context].
  split; [reflexivity|].
  rewrite del_idle, destroy_idle by (right; reflexivity).
  repeat split.
Qed.

(** ** Convenience functions *)

(** What one construction does to the log. *)
Lemma new_XdlContext_log lib_path w :
  match new_XdlContext host lib_path w with
  | (inr ctx, w1) =>
      (exists l h, ctx = {| lib := Some l; _context := Some (Some h) |}) /\
      inits (log w1) = (inits (log w) + 1)%nat /\
      calls (log w1) = calls (log w)
  | (inl _, w1) => calls (log w1) = calls (log w)
  end.
Proof.
  unfold new_XdlContext.
  destruct (load_frame lib_path blank w) as (evs & Hs & Hin & _ & Hca).
  destruct (_load_library host lib_path (blank, w)) as [[e|l] s] eqn:Hload.
  - rewrite (init_load_fails _ _ _ _ _ Hload). cbn [snd] in Hs. subst s.
    cbn [log]. unfold calls in *. rewrite count_app, Hca. lia.
  - rewrite (init_run _ _ _ _ _ Hload). cbn [snd] in Hs. subst s.
    cbn [snd engine]. unfold after_init, emit. cbn [log engine].
    unfold inits, calls in *.
    destruct (fst (xdl_init l (engine w))) as [h|]; cbn [init_result].
    + split; [now exists l, h|].
      cbn [log]. rewrite !count_app, Hin, Hca. cbn. lia.
    + cbn [log]. rewrite !count_app, Hca. cbn. lia.
Qed.

Lemma find_at (f : string -> bool) (before after : list string) (p : string) :
  Forall (fun q => f q = false) before ->
  f p = true ->
  find f (before ++ p :: after) = Some p /\
  probed f (before ++ p :: after) = (before ++ [p])%list.
Proof.
  intros Hb Hp. induction Hb as [|q r Hq _ IH]; cbn.
  - now rewrite Hp.
  - rewrite Hq. destruct IH as [-> ->]. now split.
Qed.

(** A construction that finds its library and gets a handle. *)
Lemma new_XdlContext_found lib_name before p after l h w :
  In (lower (platform_system host), lib_name) naming ->
  possible_paths host lib_name = (before ++ p :: after)%list ->
  Forall (fun q => os_path_exists host q = false) before ->
  os_path_exists host p = true ->
  ctypes_CDLL host p = inr l ->
  fst (xdl_init l (engine w)) = Some h ->
  new_XdlContext host None w =
    (inr {| lib := Some l; _context := Some (Some h) |},
     {| engine := snd (xdl_init l (engine w));
        log := (log w ++ map ev_exists (before ++ [p]) ++
                [ev_CDLL p; ev_xdl_init])%list |}).
Proof.
  intros Hin Hsplit Hb Hp Hl Hh.
  assert (Hload := load_search lib_name blank w Hin).
  rewrite Hsplit in Hload.
  destruct (find_at (os_path_exists host) before after p Hb Hp) as [Hf Hpr].
  rewrite Hf, Hpr, Hl in Hload.
  unfold new_XdlContext. rewrite (init_run _ _ _ _ _ Hload).
  cbn [snd engine emit asked]. rewrite Hh. cbn [init_result].
  unfold after_init, emit, asked. cbn [engine log].
  now rewrite <- !app_assoc.
Qed.

(** A call as the last use of a live local: the call, then the
    finaliser's cleanup of the same handle. *)
Lemma invoke_call_run l h name nb args w :
  utf8 name = Some nb ->
  invoke {| lib := Some l; _context := Some (Some h) |} (call_function name args) w =
    (inr (fst (call_outcome l (Some h) nb args w)),
     {| engine := xdl_cleanup l h (snd (call_outcome l (Some h) nb args w));
        log := (log w ++ [call_event (Some h) nb args; ev_xdl_cleanup h])%list |}).
Proof.
  intros Hn. unfold invoke.
  rewrite (call_function_run {| lib := Some l; _context := Some (Some h) |}
             l (Some h) name nb args w eq_refl eq_refl Hn).
  rewrite (del_holding {| lib := Some l; _context := Some (Some h) |}
             l h _ eq_refl eq_refl).
  unfold emit. cbn [snd engine log]. now rewrite <- app_assoc.
Qed.

(** C9. Each of [sin], [cos] and [sqrt], given a float [x], builds a
    context of its own and uses it for one call. Where the library is
    found (the first candidate that exists loads) and [xdl_init]
    answers with a handle [h], the whole run is: the existence checks
    up to that candidate, its load, one [xdl_init], exactly one native
    call through [h] with the function's own name and the single
    argument [x], and, as the local context goes out of scope, the
    cleanup of [h]; the value is what that call returned. No context
    comes in from outside or survives the function. If the function
    raises instead, no call was made. *)
Theorem convenience_dispatch (f : c_double -> SE (World E) c_double)
    (name : string) (x : c_double) w :
  In (f, name) [(sin host, "sin"); (cos host, "cos"); (sqrt host, "sqrt")] ->
  (forall lib_name before p after l h,
     In (lower (platform_system host), lib_name) naming ->
     possible_paths host lib_name = (before ++ p :: after)%list ->
     Forall (fun q => os_path_exists host q = false) before ->
     os_path_exists host p = true ->
     ctypes_CDLL host p = inr l ->
     fst (xdl_init l (engine w)) = Some h ->
     let name_z := (str_of_string name ++ [0])%list in
     let native :=
       xdl_call_function l (Some h) name_z (Some [x]) 1
         (snd (xdl_init l (engine w))) in
     f x w =
       (inr (fst native),
        {| engine := xdl_cleanup l h (snd native);
           log := (log w ++ map ev_exists (before ++ [p]) ++
                   [ev_CDLL p; ev_xdl_init;
                    ev_xdl_call_function (Some h) name_z (Some [x]) 1;
                    ev_xdl_cleanup h])%list |})) /\
  (forall e w', f x w = (inl e, w') -> calls (log w') = calls (log w)).
Proof.
  intros Hf.
  assert (Hname : utf8 (str_of_string name) = Some (str_of_string name)).
  { cbn [In] in Hf. destruct Hf as [H|[H|[H|[]]]]; injection H as _ <-; reflexivity. }
  assert (Hdef : f x w =
            bind (new_XdlContext host None)
                 (fun ctx => invoke ctx (call_function (str_of_string name) [x])) w).
  { cbn [In] in Hf. destruct Hf as [H|[H|[H|[]]]]; injection H as <- <-; reflexivity. }
  rewrite Hdef. unfold bind. split.
  - intros lib_name before p after l h Hin Hsplit Hb Hp Hl Hh. cbv zeta.
    rewrite (new_XdlContext_found lib_name before p after l h w Hin Hsplit Hb Hp Hl Hh).
    rewrite (invoke_call_run l h _ _ [x] _ Hname).
    unfold call_outcome, call_event, c_char_p. cbn [engine log c_args_of nargs_of].
    rewrite <- !app_assoc. reflexivity.
  - intros e w'.
    assert (Hnew := new_XdlContext_log None w).
    destruct (new_XdlContext host None w) as [[e0|ctx] w1].
    + now intros [= _ <-].
    + destruct Hnew as ((l & h & ->) & _).
      rewrite (invoke_call_run l h _ _ [x] _ Hname). discriminate.
Qed.

End Facts.

(** * The properties on the stub *)

Import Stub.

Example construction_on_linux :
  fst (snd (__init__ linux_host None (blank, w0))) = active.
Proof. reflexivity. Qed.

Example sin_on_linux :
  fst (sin linux_host one w0) = inr one.
Proof. reflexivity. Qed.

Example utf8_euro : utf8 [8364] = Some [226; 130; 172].
Proof. reflexivity. Qed.

Example utf8_surrogate : utf8 [55296] = None.
Proof. reflexivity. Qed.

Example join_debug :
  posixpath_join "a/b" [".."; "target"; "debug"; "libxdl_ffi.so"] =
    "a/b/../target/debug/libxdl_ffi.so".
Proof. reflexivity. Qed.

(** C1, a run that contradicts the claim as worded. A context that
    was constructed and then destroyed still answers a call, and the
    native call entry is invoked with the stale handle; so does a
    context whose initialisation failed, with the null handle. *)
Lemma call_through_dead_context_succeeds :
  let destroyed := snd (__del__ (snd (__init__ linux_host None (blank, w0)))) in
  let failed := snd (__init__ linux_host (Some "/opt/bad/libxdl_ffi.so") (blank, w0)) in
  let sin_name := str_of_string "sin" in
  (cleanups (log (snd destroyed)) = 1%nat /\
   (forall e, fst (call_function sin_name [one] destroyed) <> inl e) /\
   fst (call_function sin_name [one] destroyed) = inr one /\
   calls (log (snd (snd (call_function sin_name [one] destroyed)))) = 1%nat) /\
  (_context (fst failed) = Some None /\
   (forall e, fst (call_function sin_name [one] failed) <> inl e) /\
   calls (log (snd (snd (call_function sin_name [one] failed)))) = 1%nat /\
   In (ev_xdl_call_function None [115; 105; 110; 0] (Some [one]) 1)
      (log (snd (snd (call_function sin_name [one] failed))))).
Proof.
  cbv zeta. repeat split; try reflexivity; try (intros e; discriminate).
  right; right; left. reflexivity.
Qed.

Lemma call_function_checks_no_state_witness :
  lib active = Some stub_lib /\
  _context active = Some (Some 4096) /\
  utf8 (str_of_string "sin") = Some [115; 105; 110] /\
  let w1 : World nat :=
    {| engine := cleanup_n stub_lib 4096 2 (engine w0);
       log := (log w0 ++ repeat (ev_xdl_cleanup 4096) 2)%list |} in
  let c_args := Some [inf] in
  let nargs := Z.of_nat (List.length [inf]) in
  let native :=
    xdl_call_function stub_lib (Some 4096) ([115; 105; 110] ++ [0])%list
      c_args nargs (engine w1) in
  destroy 2 (active, w0) = (inr tt, (active, w1)) /\
  call_function (str_of_string "sin") [inf] (active, w1) =
    (inr (fst native),
     (active,
      {| engine := snd native;
         log := (log w1 ++
                 [ev_xdl_call_function (Some 4096) ([115; 105; 110] ++ [0]) c_args nargs])%list |})).
Proof.
  split; [reflexivity|]. split; [reflexivity|]. split; [reflexivity|].
  exact (call_function_checks_no_state active stub_lib (Some 4096)
           (str_of_string "sin") [115; 105; 110] [inf] 2 w0
           eq_refl eq_refl eq_refl).
Defined.




Lemma call_function_result_verbatim_witness :
  lib active = Some stub_lib /\
  _context active = Some (Some 4096) /\
  utf8 (str_of_string "sin") = Some [115; 105; 110] /\
  exists c_args nargs w',
    let native :=
      xdl_call_function stub_lib (Some 4096) ([115; 105; 110] ++ [0])%list
        c_args nargs (engine w0) in
    call_function (str_of_string "sin") [inf] (active, w0) =
      (inr (fst native), (active, w')) /\
    engine w' = snd native /\
    log w' =
      (log w0 ++
       [ev_xdl_call_function (Some 4096) ([115; 105; 110] ++ [0]) c_args nargs])%list /\
    calls (log w') = (calls (log w0) + 1)%nat.
Proof.
  repeat (split; [reflexivity|]).
  exact (call_function_result_verbatim active stub_lib (Some 4096)
           (str_of_string "sin") [115; 105; 110] [inf] w0
           eq_refl eq_refl eq_refl).
Defined.

Lemma unsupported_platform_fails_first_witness :
  ~ In (lower (platform_system plan9_host)) ["darwin"; "linux"; "windows"] /\
  _load_library plan9_host None (blank, w0) =
    (inl (RuntimeError [Lit "Unsupported platform: "; Fmt "plan9"]), (blank, w0)) /\
  new_XdlContext plan9_host None w0 =
    (inl (RuntimeError [Lit "Unsupported platform: "; Fmt "plan9"]), w0).
Proof.
  assert (H : ~ In (lower (platform_system plan9_host)) ["darwin"; "linux"; "windows"]).
  { cbn. intros [H|[H|[H|[]]]]; discriminate. }
  split; [exact H|].
  exact (unsupported_platform_fails_first plan9_host blank w0 H).
Defined.

Lemma candidate_search_order_witness :
  In (lower (platform_system linux_host), "libxdl_ffi.so") naming /\
  exists before after,
    possible_paths linux_host "libxdl_ffi.so" = (before ++ release_so :: after)%list /\
    Forall (fun q => os_path_exists linux_host q = false) before /\
    os_path_exists linux_host release_so = true /\
    _load_library linux_host None (blank, w0) =
      (ctypes_CDLL linux_host release_so,
       (blank, {| engine := engine w0;
                  log := (log w0 ++ map ev_exists (before ++ [release_so]) ++
                          [ev_CDLL release_so])%list |})).
Proof.
  split; [right; left; reflexivity|].
  exact (candidate_search_order linux_host "libxdl_ffi.so" blank w0
           (or_intror (or_introl eq_refl))).
Defined.

(** With no build on disk the error lists the four candidates, debug
    first, and each was asked about once, in that order. *)
Example nothing_on_disk :
  _load_library bare_host None (blank, w0) =
    (inl (RuntimeError
            [Lit "Could not find XDL library. Tried: ";
             FmtList
               ["/opt/xdl/examples/embedding/python/../../../target/debug/libxdl_ffi.so";
                "/opt/xdl/examples/embedding/python/../../../target/release/libxdl_ffi.so";
                "./libxdl_ffi.so";
                "libxdl_ffi.so"]]),
     (blank,
      mkWorld 0%nat
        [ev_exists "/opt/xdl/examples/embedding/python/../../../target/debug/libxdl_ffi.so";
         ev_exists "/opt/xdl/examples/embedding/python/../../../target/release/libxdl_ffi.so";
         ev_exists "./libxdl_ffi.so";
         ev_exists "libxdl_ffi.so"])).
Proof. reflexivity. Qed.

Lemma failed_init_raises_witness :
  _load_library linux_host (Some bad_so) (blank, w0) =
    (inr failing_lib, (blank, emit (ev_CDLL bad_so) w0)) /\
  fst (xdl_init failing_lib (engine (snd (blank (E := nat), emit (ev_CDLL bad_so) w0)))) = None /\
  exists w',
    __init__ linux_host (Some bad_so) (blank, w0) =
      (inl (XdlError [Lit "Failed to initialize XDL context"]),
       ({| lib := Some failing_lib; _context := Some None |}, w')) /\
    new_XdlContext linux_host (Some bad_so) w0 =
      (inl (XdlError [Lit "Failed to initialize XDL context"]), w') /\
    cleanups (log w') = cleanups (log w0) /\
    calls (log w') = calls (log w0).
Proof.
  repeat (split; [reflexivity|]).
  exact (failed_init_raises linux_host (Some bad_so) w0 failing_lib
           (blank, emit (ev_CDLL bad_so) w0) eq_refl eq_refl).
Defined.

Lemma destroy_after_failed_init_witness :
  _load_library linux_host (Some bad_so) (blank, w0) =
    (inr failing_lib, (blank, emit (ev_CDLL bad_so) w0)) /\
  fst (xdl_init failing_lib (engine (snd (blank (E := nat), emit (ev_CDLL bad_so) w0)))) = None /\
  let failed := snd (__init__ linux_host (Some bad_so) (blank, w0)) in
  _context (fst failed) = Some None /\
  __del__ failed = (inr tt, failed) /\
  destroy 3 failed = (inr tt, failed) /\
  cleanups (log (snd (snd (destroy 3 failed)))) = cleanups (log (snd failed)).
Proof.
  split; [reflexivity|]. split; [reflexivity|].
  exact (destroy_after_failed_init linux_host (Some bad_so) w0 failing_lib
           (blank, emit (ev_CDLL bad_so) w0) 3 eq_refl eq_refl).
Defined.

Lemma convenience_dispatch_witness :
  In (sqrt linux_host, "sqrt")
     [(sin linux_host, "sin"); (cos linux_host, "cos"); (sqrt linux_host, "sqrt")] /\
  In (lower (platform_system linux_host), "libxdl_ffi.so") naming /\
  possible_paths linux_host "libxdl_ffi.so" =
    ([debug_so] ++ release_so :: ["./libxdl_ffi.so"; "libxdl_ffi.so"])%list /\
  Forall (fun q => os_path_exists linux_host q = false) [debug_so] /\
  os_path_exists linux_host release_so = true /\
  ctypes_CDLL linux_host release_so = inr stub_lib /\
  fst (xdl_init stub_lib (engine w0)) = Some 4096 /\
  sqrt linux_host one w0 =
    (inr one,
     {| engine := 1%nat;
        log := [ev_exists debug_so; ev_exists release_so; ev_CDLL release_so;
                ev_xdl_init;
                ev_xdl_call_function (Some 4096) [115; 113; 114; 116; 0] (Some [one]) 1;
                ev_xdl_cleanup 4096] |}).
Proof.
  assert (H0 : In (sqrt linux_host, "sqrt")
                 [(sin linux_host, "sin"); (cos linux_host, "cos");
                  (sqrt linux_host, "sqrt")])
    by (right; right; left; reflexivity).
  assert (H1 : In (lower (platform_system linux_host), "libxdl_ffi.so") naming)
    by (right; left; reflexivity).
  assert (H3 : Forall (fun q => os_path_exists linux_host q = false) [debug_so])
    by (constructor; [reflexivity | constructor]).
  split; [exact H0|]. split; [exact H1|]. split; [reflexivity|].
  split; [exact H3|]. split; [reflexivity|]. split; [reflexivity|].
  split; [reflexivity|].
  exact (proj1 (convenience_dispatch linux_host (sqrt linux_host) "sqrt" one w0 H0)
           "libxdl_ffi.so" [debug_so] release_so ["./libxdl_ffi.so"; "libxdl_ffi.so"]
           stub_lib 4096 H1 eq_refl H3 eq_refl eq_refl eq_refl).
Defined.

(** Two convenience calls in a row: two constructions, two handles,
    each cleaned up as its function returns. *)
Example no_context_reuse :
  let w1 := snd (sin linux_host one w0) in
  let w2 := snd (cos linux_host one w1) in
  inits (log w1) = 1%nat /\ cleanups (log w1) = 1%nat /\
  inits (log w2) = 2%nat /\ cleanups (log w2) = 2%nat /\
  In (ev_xdl_call_function (Some 4096) [115; 105; 110; 0] (Some [one]) 1) (log w2) /\
  In (ev_xdl_call_function (Some 4097) [99; 111; 115; 0] (Some [one]) 1) (log w2).
Proof.
  cbv zeta. repeat split; try reflexivity.
  - do 4 right. left. reflexivity.
  - do 10 right. left. reflexivity.
Qed.

(** * Further properties of the module *)

Section Further.

Context {E : Type}.
Variable host : Host E.

Implicit Types (w : World E) (ctx : XdlContext E) (l : CDLL E).

(** ** When a call fails *)

Lemma call_function_raises ctx name args w :
  utf8 name = None \/ lib ctx = None \/ _context ctx = None ->
  call_function name args (ctx, w) =
    (inl match utf8 name, lib ctx with
         | None, _ => UnicodeEncodeError
         | Some _, None => AttributeError "lib"
         | Some _, Some _ => AttributeError "_context"
         end,
     (ctx, w)).
Proof.
  intros H. unfold call_function.
  destruct args as [|a r];
    unfold bind, encode_utf8, self_lib, self__context, ret, raise;
    (destruct (utf8 name) as [nb|]; [|reflexivity]);
    cbn [fst snd];
    (destruct (lib ctx) as [l|]; [|reflexivity]);
    cbn [fst snd];
    (destruct (_context ctx) as [h|]; [|reflexivity]);
    destruct H as [H|[H|H]]; discriminate.
Qed.

(** Given float arguments, [call_function] raises exactly when the
    name has no UTF-8 encoding or the instance lacks one of its two
    attributes. A failing call
    leaves the instance and the world untouched, so the native call
    entry is not reached; the encoding error is reported before a
    missing [lib], and that before a missing [_context]. *)
Theorem call_function_fails_iff ctx name args w :
  let r := call_function name args (ctx, w) in
  ((exists e, fst r = inl e) <->
   utf8 name = None \/ lib ctx = None \/ _context ctx = None) /\
  (forall e, fst r = inl e ->
     snd r = (ctx, w) /\
     e = match utf8 name, lib ctx with
         | None, _ => UnicodeEncodeError
         | Some _, None => AttributeError "lib"
         | Some _, Some _ => AttributeError "_context"
         end).
Proof.
  cbv zeta.
  destruct (utf8 name) as [nb|] eqn:Hn;
    [destruct (lib ctx) as [l|] eqn:Hl;
     [destruct (_context ctx) as [h|] eqn:Hc|]|].
  - rewrite (call_function_run ctx l h name nb args w Hl Hc Hn). cbn [fst snd].
    split.
    + split; [intros [e He]; discriminate | intros [H|[H|H]]; discriminate].
    + intros e He. discriminate.
  - assert (Hr := call_function_raises ctx name args w (or_intror (or_intror Hc))).
    rewrite Hn, Hl in Hr. rewrite Hr. cbn [fst snd]. split.
    + split; [auto | intros _; eexists; reflexivity].
    + intros e [= <-]. now split.
  - assert (Hr := call_function_raises ctx name args w (or_intror (or_introl Hl))).
    rewrite Hn, Hl in Hr. rewrite Hr. cbn [fst snd]. split.
    + split; [auto | intros _; eexists; reflexivity].
    + intros e [= <-]. now split.
  - assert (Hr := call_function_raises ctx name args w (or_introl Hn)).
    rewrite Hn in Hr. rewrite Hr. cbn [fst snd]. split.
    + split; [auto | intros _; eexists; reflexivity].
    + intros e [= <-]. now split.
Qed.

(** ** What construction leaves behind *)

(** The constructor hands out an instance exactly when the library
    loads and [xdl_init] answers with a handle; the instance then holds
    that library and that very handle, and the world has seen one more
    [xdl_init] after the load. *)
Theorem construction_succeeds_iff lib_path w ctx w1 :
  new_XdlContext host lib_path w = (inr ctx, w1) <->
  exists l s h,
    _load_library host lib_path (blank, w) = (inr l, s) /\
    fst (xdl_init l (engine (snd s))) = Some h /\
    ctx = {| lib := Some l; _context := Some (Some h) |} /\
    w1 = {| engine := snd (xdl_init l (engine (snd s)));
            log := (log (snd s) ++ [ev_xdl_init])%list |}.
Proof.
  unfold new_XdlContext. split.
  - destruct (_load_library host lib_path (blank, w)) as [[e|l] s] eqn:Hload.
    + rewrite (init_load_fails host _ _ _ _ _ Hload). destruct s. discriminate.
    + rewrite (init_run host _ _ _ _ _ Hload).
      destruct (fst (xdl_init l (engine (snd s)))) as [h|] eqn:Hh;
        cbn [init_result]; [|discriminate].
      intros [= <- <-]. exists l, s, h. repeat split; auto.
  - intros (l & s & h & Hload & Hh & -> & ->).
    rewrite (init_run host _ _ _ _ _ Hload), Hh. reflexivity.
Qed.


(** ** The footprint of library discovery *)

Lemma probed_length (f : string -> bool) (paths : list string) :
  (List.length (probed f paths) <= List.length paths)%nat.
Proof.
  induction paths as [|p r IH]; cbn; [lia|].
  destruct (f p); cbn; lia.
Qed.

Lemma count_exists_asked (paths : list string) :
  count is_exists (map ev_exists paths) = List.length paths.
Proof.
  unfold count. induction paths as [|p r IH]; cbn; [reflexivity | now rewrite IH].
Qed.

Lemma in_asked (p : string) (paths : list string) :
  ~ In (ev_CDLL p) (map ev_exists paths).
Proof.
  induction paths as [|q r IH]; cbn; [tauto|]. intros [H|H]; [discriminate | tauto].
Qed.

Lemma forall_asked (P : event -> Prop) (paths : list string) :
  (forall q, P (ev_exists q)) -> Forall P (map ev_exists paths).
Proof. intros HP. induction paths; cbn; constructor; auto. Qed.

(** [_load_library] works on the file system and the loader only: it
    leaves [self] and the engine alone and reaches no native entry
    point. It asks about at most four paths, none at all when a path
    is given, and hands at most one path to the loader: the given one,
    or else one it has found to exist. *)
Theorem load_library_footprint lib_path ctx w :
  exists evs,
    snd (_load_library host lib_path (ctx, w)) =
      (ctx, {| engine := engine w; log := (log w ++ evs)%list |}) /\
    Forall (fun ev => is_exists ev = true \/ is_load ev = true) evs /\
    (count is_exists evs <= 4)%nat /\
    (count is_load evs <= 1)%nat /\
    (lib_path <> None -> count is_exists evs = 0%nat) /\
    (forall p, In (ev_CDLL p) evs ->
       lib_path = Some p \/ (lib_path = None /\ os_path_exists host p = true)).
Proof.
  destruct lib_path as [given|].
  - rewrite load_explicit. exists [ev_CDLL given]. cbn [snd].
    split; [reflexivity|]. split; [repeat constructor; now right|].
    cbn. repeat split; try lia. intros p [[= ->]|[]]. now left.
  - destruct (in_dec string_dec (lower (platform_system host)) (map fst naming))
      as [Hin|Hout].
    + apply in_map_iff in Hin. destruct Hin as ([sys lib_name] & Hsys & Hin).
      cbn in Hsys. subst sys. rewrite (load_search host lib_name ctx w Hin).
      assert (Hlen : List.length (possible_paths host lib_name) = 4%nat) by reflexivity.
      destruct (find _ _) as [p|] eqn:Hfind.
      * exists (map ev_exists (probed (os_path_exists host)
                                   (possible_paths host lib_name)) ++ [ev_CDLL p])%list.
        cbn [snd]. unfold emit, asked. cbn [engine log].
        split; [now rewrite app_assoc|].
        split; [apply Forall_app; split;
                [apply forall_asked; now left | repeat constructor; now right]|].
        rewrite !count_app, count_exists_asked.
        pose proof (probed_length (os_path_exists host) (possible_paths host lib_name)).
        change (count is_exists [ev_CDLL p]) with 0%nat.
        change (count is_load [ev_CDLL p]) with 1%nat.
        rewrite count_asked by reflexivity.
        split; [lia|]. split; [lia|]. split; [congruence|].
        intros q Hq. apply in_app_or in Hq. destruct Hq as [Hq|[[= <-]|[]]].
        -- now apply in_asked in Hq.
        -- right. split; [reflexivity|]. now apply find_some in Hfind.
      * exists (map ev_exists (possible_paths host lib_name)).
        cbn [snd]. split; [reflexivity|].
        split; [apply forall_asked; now left|].
        rewrite count_exists_asked, count_asked by reflexivity.
        repeat split; try lia; try congruence.
        intros q Hq. now apply in_asked in Hq.
    + rewrite (load_unsupported host ctx w Hout). exists []. cbn.
      rewrite app_nil_r. split; [now destruct w|].
      split; [constructor|]. repeat split; try lia; tauto.
Qed.

(** With an explicit path, the system name and the file system play no
    part: two hosts whose loaders agree on that path construct alike,
    and no existence check is logged. *)
Theorem explicit_path_bypasses_discovery (host' : Host E) p w :
  ctypes_CDLL host p = ctypes_CDLL host' p ->
  __init__ host (Some p) (blank, w) = __init__ host' (Some p) (blank, w) /\
  count is_exists (log (snd (snd (__init__ host (Some p) (blank, w))))) =
    count is_exists (log w).
Proof.
  intros Hsame.
  assert (H1 := load_explicit host p blank w).
  assert (H2 := load_explicit host' p blank w).
  rewrite <- Hsame in H2.
  destruct (ctypes_CDLL host p) as [e|l].
  - rewrite (init_load_fails host _ _ _ _ _ H1), (init_load_fails host' _ _ _ _ _ H2).
    split; [reflexivity|]. cbn [snd emit log]. rewrite count_app. cbn. lia.
  - rewrite (init_run host _ _ _ _ _ H1), (init_run host' _ _ _ _ _ H2).
    split; [reflexivity|]. unfold after_init, emit. cbn [snd log].
    rewrite !count_app. cbn. lia.
Qed.

(** On a file system where [./name] and [name] are the same file, the
    bare name is never the one handed to the loader: whenever some
    candidate exists, the loader gets one of the first three, after
    exactly as many existence checks as its position. *)
Theorem bare_name_is_never_chosen lib_name ctx w :
  In (lower (platform_system host), lib_name) naming ->
  os_path_exists host ("./" ++ lib_name) = os_path_exists host lib_name ->
  (exists q, In q (possible_paths host lib_name) /\ os_path_exists host q = true) ->
  exists k p,
    (k < 3)%nat /\
    nth_error (possible_paths host lib_name) k = Some p /\
    _load_library host None (ctx, w) =
      (ctypes_CDLL host p,
       (ctx, {| engine := engine w;
                log := (log w ++
                        map ev_exists (firstn (S k) (possible_paths host lib_name)) ++
                        [ev_CDLL p])%list |})).
Proof.
  intros Hin Hsame (q & Hq & Hex).
  rewrite (load_search host lib_name ctx w Hin).
  unfold possible_paths in *.
  set (d := os_path_join host (dirname_file host)
              [".."; ".."; ".."; "target"; "debug"; lib_name]) in *.
  set (r := os_path_join host (dirname_file host)
              [".."; ".."; ".."; "target"; "release"; lib_name]) in *.
  unfold emit, asked. cbn [find probed engine log].
  destruct (os_path_exists host d) eqn:Hd.
  { exists 0%nat, d. repeat split; [lia|]. cbn. now rewrite <- app_assoc. }
  destruct (os_path_exists host r) eqn:Hr.
  { exists 1%nat, r. repeat split; [lia|]. cbn. now rewrite <- app_assoc. }
  destruct (os_path_exists host ("./" ++ lib_name)) eqn:Hc.
  { exists 2%nat, ("./" ++ lib_name)%string. repeat split; [lia|].
    cbn. now rewrite <- app_assoc. }
  exfalso. cbn [In] in Hq.
  destruct Hq as [<-|[<-|[<-|[<-|[]]]]]; congruence.
Qed.

(** ** Any interleaving of calls and destructions *)

(** However a client mixes calls (float arguments, encodable names)
    and runs of [__del__] on a context that holds handle [h], nothing
    raises and the context stays as it is. The log grows by exactly
    one native invocation per use, in the order of the uses: for a
    call, the call with its marshaled name and arguments; for a
    destruction, a cleanup. Every one of them is handed [h], so a call
    made after a cleanup still goes through, on the handle already
    cleaned up. *)
Theorem uses_keep_the_handle ctx l h us w :
  lib ctx = Some l ->
  _context ctx = Some (Some h) ->
  Forall use_encodable us ->
  exists evs w',
    uses us (ctx, w) = (inr tt, (ctx, w')) /\
    log w' = (log w ++ evs)%list /\
    map (use_event h) us = map Some evs /\
    Forall (fun ev => handle_of ev = Some (Some h)) evs.
Proof.
  intros Hl Hc Hus. revert w.
  induction Hus as [|u r Hu _ IH]; intros w.
  - exists [], w. cbn. rewrite app_nil_r. repeat split; constructor.
  - destruct u as [name args|].
    + cbn in Hu. destruct (utf8 name) as [nb|] eqn:Hn; [|congruence].
      cbn [uses]. unfold bind at 1.
      rewrite (call_function_run ctx l (Some h) name nb args w Hl Hc Hn).
      destruct (IH (emit (call_event (Some h) nb args)
                      {| engine := snd (call_outcome l (Some h) nb args w);
                         log := log w |}))
        as (evs & w' & Hrun & Hlog & Hmap & Hh).
      exists (call_event (Some h) nb args :: evs), w'.
      split; [exact Hrun|]. cbn [log emit] in Hlog.
      split; [rewrite Hlog, <- app_assoc; reflexivity|].
      split; [|constructor; [reflexivity | exact Hh]].
      cbn [map use_event]. rewrite Hn, Hmap. reflexivity.
    + cbn [uses]. unfold bind at 1.
      rewrite (del_holding ctx l h w Hl Hc).
      destruct (IH (emit (ev_xdl_cleanup h)
                      {| engine := xdl_cleanup l h (engine w); log := log w |}))
        as (evs & w' & Hrun & Hlog & Hmap & Hh).
      exists (ev_xdl_cleanup h :: evs), w'.
      split; [exact Hrun|]. cbn [log emit] in Hlog.
      split; [rewrite Hlog, <- app_assoc; reflexivity|].
      split; [|constructor; [reflexivity | exact Hh]].
      cbn [map use_event]. now rewrite Hmap.
Qed.

(** ** Failure of the convenience functions *)


(** ** The name as the callee reads it *)






(** ** Where a POSIX host looks *)

Lemma append_assoc (a b c : string) : ((a ++ b) ++ c = a ++ (b ++ c))%string.
Proof. induction a as [|x a IH]; cbn; [reflexivity | now rewrite IH]. Qed.

Lemma append_nonempty (a b : string) : b <> "" -> (a ++ b)%string <> "".
Proof. destruct a; cbn; [auto | discriminate]. Qed.

Lemma ends_with_sep_app (a b : string) :
  b <> "" -> ends_with_sep (a ++ b) = ends_with_sep b.
Proof.
  intros Hb. induction a as [|x a IH]; [reflexivity|].
  cbn [append ends_with_sep].
  destruct (a ++ b)%string eqn:Hab.
  - now apply append_nonempty with (a := a) in Hb.
  - exact IH.
Qed.

Lemma plain_segment_spec (b : string) :
  plain_segment b = true ->
  b <> "" /\ starts_with_sep b = false /\ ends_with_sep b = false.
Proof.
  unfold plain_segment. rewrite !andb_true_iff, !negb_true_iff.
  intros [[H1 H2] H3]. apply String.eqb_neq in H1. auto.
Qed.

Lemma posixpath_join_step (a b : string) (r : list string) :
  plain_segment b = true ->
  posixpath_join a (b :: r) = posixpath_join (posix_base a ++ b) r.
Proof.
  intros Hb. apply plain_segment_spec in Hb. destruct Hb as (_ & Hs & _).
  cbn [posixpath_join]. rewrite Hs. unfold posix_base.
  destruct ((a =? "")%string || ends_with_sep a); [reflexivity|].
  now rewrite append_assoc.
Qed.

Lemma posix_base_after (x b : string) :
  plain_segment b = true ->
  posix_base (x ++ b) = ((x ++ b) ++ "/")%string.
Proof.
  intros Hb. apply plain_segment_spec in Hb. destruct Hb as (Hne & _ & He).
  unfold posix_base. rewrite (ends_with_sep_app x b Hne), He.
  apply (append_nonempty x) in Hne. apply String.eqb_neq in Hne.
  now rewrite Hne.
Qed.

(** On a host whose [os.path.join] is [posixpath.join], the four
    candidates are the module directory followed by
    [../../../target/debug/] and the file name, the same with
    [release], then [./] and the file name, then the bare file name;
    an empty module directory makes the first two relative to the
    working directory, and a directory that already ends in a
    separator gets no second one. *)
Theorem posix_candidates lib_name :
  os_path_join host = posixpath_join ->
  In lib_name (map snd naming) ->
  possible_paths host lib_name =
    [ posix_base (dirname_file host) ++ "../../../target/debug/" ++ lib_name;
      posix_base (dirname_file host) ++ "../../../target/release/" ++ lib_name;
      "./" ++ lib_name;
      lib_name ]%string.
Proof.
  intros Hjoin Hin.
  assert (Hplain : plain_segment lib_name = true).
  { cbn [naming map snd In] in Hin. destruct Hin as [<-|[<-|[<-|[]]]]; reflexivity. }
  unfold possible_paths. rewrite Hjoin.
  set (base := posix_base (dirname_file host)).
  assert (Hwalk : forall mid, plain_segment mid = true ->
            posixpath_join (dirname_file host)
              [".."; ".."; ".."; "target"; mid; lib_name] =
            (base ++ "../../../target/" ++ mid ++ "/" ++ lib_name)%string).
  { intros mid Hmid.
    rewrite posixpath_join_step by reflexivity. fold base.
    rewrite posixpath_join_step, posix_base_after by reflexivity.
    rewrite posixpath_join_step, posix_base_after by reflexivity.
    rewrite posixpath_join_step, posix_base_after by reflexivity.
    rewrite posixpath_join_step, posix_base_after by (reflexivity || assumption).
    rewrite posixpath_join_step, posix_base_after by assumption.
    cbn [posixpath_join]. rewrite !append_assoc. reflexivity. }
  rewrite !Hwalk by reflexivity. reflexivity.
Qed.

(** ** Every call is well formed *)

(** Whatever the instance, the name and the arguments, a run of
    [call_function] adds at most one native event, and the call it
    makes is well formed: octets closed by a NUL for the name, and a
    null array with count 0 or a non-empty array with its length. *)
Theorem call_function_well_formed ctx name args w :
  exists evs,
    log (snd (snd (call_function name args (ctx, w)))) = (log w ++ evs)%list /\
    (List.length evs <= 1)%nat /\
    Forall well_formed_call evs.
Proof.
  destruct (utf8 name) as [nb|] eqn:Hn;
    [destruct (lib ctx) as [l|] eqn:Hl;
     [destruct (_context ctx) as [h|] eqn:Hc|]|].
  - rewrite (call_function_run ctx l h name nb args w Hl Hc Hn).
    exists [call_event h nb args]. cbn [snd log emit].
    split; [reflexivity|]. split; [cbn; lia|].
    constructor; [|constructor].
    unfold call_event, well_formed_call, c_char_p.
    split.
    { apply Forall_app. split; [exact (utf8_octets name nb Hn)|].
      constructor; [unfold octet; lia | constructor]. }
    split; [now exists nb|].
    destruct args as [|a r]; cbn [c_args_of nargs_of]; [reflexivity|].
    split; [reflexivity | cbn [List.length]; lia].
  - rewrite call_function_raises by auto. exists []. cbn.
    rewrite app_nil_r. repeat split; [lia | constructor].
  - rewrite call_function_raises by auto. exists []. cbn.
    rewrite app_nil_r. repeat split; [lia | constructor].
  - rewrite call_function_raises by auto. exists []. cbn.
    rewrite app_nil_r. repeat split; [lia | constructor].
Qed.

(** ** No second try after a failed load *)

(** The search settles on the first candidate that exists and does
    not come back: if the loader rejects that one, the constructor
    raises the loader's error, without asking about any later
    candidate and without reaching [xdl_init], even if a later
    candidate exists and would load. *)
Theorem no_fallback_after_failed_load lib_name before after p e w :
  In (lower (platform_system host), lib_name) naming ->
  possible_paths host lib_name = (before ++ p :: after)%list ->
  Forall (fun q => os_path_exists host q = false) before ->
  os_path_exists host p = true ->
  ctypes_CDLL host p = inl e ->
  new_XdlContext host None w =
    (inl e,
     {| engine := engine w;
        log := (log w ++ map ev_exists (before ++ [p]) ++ [ev_CDLL p])%list |}) /\
  __init__ host None (blank, w) =
    (inl e,
     (blank,
      {| engine := engine w;
         log := (log w ++ map ev_exists (before ++ [p]) ++ [ev_CDLL p])%list |})).
Proof.
  intros Hin Hsplit Hb Hp He.
  assert (Hload := load_search host lib_name blank w Hin).
  rewrite Hsplit in Hload.
  destruct (find_at (os_path_exists host) before after p Hb Hp) as [Hf Hpr].
  rewrite Hf, Hpr, He in Hload.
  unfold emit, asked in Hload. cbn [engine log] in Hload.
  rewrite <- app_assoc in Hload.
  assert (Hinit := init_load_fails host _ _ _ _ _ Hload).
  split; [|exact Hinit].
  unfold new_XdlContext. now rewrite Hinit.
Qed.

End Further.

(** * The further properties on the stub *)

Example nul_cuts_the_name :
  c_string (c_char_p [115; 105; 0; 110]) = [115; 105].
Proof. reflexivity. Qed.

Example unencodable_name_stops_the_call :
  call_function [115; 55296] [one] (active, w0) = (inl UnicodeEncodeError, (active, w0)).
Proof. reflexivity. Qed.

Lemma explicit_path_bypasses_discovery_witness :
  ctypes_CDLL plan9_host usr_lib_so = ctypes_CDLL linux_host usr_lib_so /\
  __init__ plan9_host (Some usr_lib_so) (blank, w0) =
    __init__ linux_host (Some usr_lib_so) (blank, w0) /\
  count is_exists (log (snd (snd (__init__ plan9_host (Some usr_lib_so) (blank, w0))))) =
    count is_exists (log w0).
Proof.
  split; [reflexivity|].
  exact (explicit_path_bypasses_discovery plan9_host linux_host usr_lib_so w0 eq_refl).
Defined.

Lemma bare_name_is_never_chosen_witness :
  In (lower (platform_system linux_host), "libxdl_ffi.so") naming /\
  os_path_exists linux_host "./libxdl_ffi.so" =
    os_path_exists linux_host "libxdl_ffi.so" /\
  (exists q, In q (possible_paths linux_host "libxdl_ffi.so") /\
             os_path_exists linux_host q = true) /\
  exists k p,
    (k < 3)%nat /\
    nth_error (possible_paths linux_host "libxdl_ffi.so") k = Some p /\
    _load_library linux_host None (blank, w0) =
      (ctypes_CDLL linux_host p,
       (blank, {| engine := engine w0;
                  log := (log w0 ++
                          map ev_exists
                            (firstn (S k) (possible_paths linux_host "libxdl_ffi.so")) ++
                          [ev_CDLL p])%list |})).
Proof.
  assert (H1 : In (lower (platform_system linux_host), "libxdl_ffi.so") naming)
    by (right; left; reflexivity).
  assert (H3 : exists q, In q (possible_paths linux_host "libxdl_ffi.so") /\
                         os_path_exists linux_host q = true)
    by (exists release_so; split; [right; left; reflexivity | reflexivity]).
  split; [exact H1|]. split; [reflexivity|]. split; [exact H3|].
  exact (bare_name_is_never_chosen linux_host "libxdl_ffi.so" blank w0 H1 eq_refl H3).
Defined.

Lemma uses_keep_the_handle_witness :
  lib active = Some stub_lib /\
  _context active = Some (Some 4096) /\
  Forall use_encodable session /\
  exists evs w',
    uses session (active, w0) = (inr tt, (active, w')) /\
    log w' = (log w0 ++ evs)%list /\
    map (use_event 4096) session = map Some evs /\
    Forall (fun ev => handle_of ev = Some (Some 4096)) evs.
Proof.
  assert (H : Forall use_encodable session).
  { repeat constructor; discriminate. }
  split; [reflexivity|]. split; [reflexivity|]. split; [exact H|].
  exact (uses_keep_the_handle active stub_lib 4096 session w0 eq_refl eq_refl H).
Defined.

(** The session on the stub, event by event: the second call comes
    after the first cleanup and carries the same handle. *)
Example session_log :
  log (snd (snd (uses session (active, w0)))) =
    [ ev_xdl_call_function (Some 4096) [115; 105; 110; 0] (Some [one]) 1;
      ev_xdl_cleanup 4096;
      ev_xdl_call_function (Some 4096) [99; 111; 115; 0] (Some [inf; one]) 2;
      ev_xdl_cleanup 4096 ].
Proof. reflexivity. Qed.



Lemma posix_candidates_witness :
  os_path_join linux_host = posixpath_join /\
  In "libxdl_ffi.so" (map snd naming) /\
  possible_paths linux_host "libxdl_ffi.so" =
    [ posix_base (dirname_file linux_host) ++ "../../../target/debug/" ++ "libxdl_ffi.so";
      posix_base (dirname_file linux_host) ++ "../../../target/release/" ++ "libxdl_ffi.so";
      "./" ++ "libxdl_ffi.so";
      "libxdl_ffi.so" ]%string.
Proof.
  split; [reflexivity|]. split; [right; left; reflexivity|].
  exact (posix_candidates linux_host "libxdl_ffi.so" eq_refl
           (or_intror (or_introl eq_refl))).
Defined.

Lemma no_fallback_after_failed_load_witness :
  In (lower (platform_system broken_debug_host), "libxdl_ffi.dylib") naming /\
  possible_paths broken_debug_host "libxdl_ffi.dylib" =
    ([] ++ debug_dylib ::
     tl (possible_paths broken_debug_host "libxdl_ffi.dylib"))%list /\
  Forall (fun q => os_path_exists broken_debug_host q = false) [] /\
  os_path_exists broken_debug_host debug_dylib = true /\
  ctypes_CDLL broken_debug_host debug_dylib = inl (OSError debug_dylib) /\
  ctypes_CDLL broken_debug_host
    "/opt/xdl/examples/embedding/python/../../../target/release/libxdl_ffi.dylib" =
    inr stub_lib /\
  new_XdlContext broken_debug_host None w0 =
    (inl (OSError debug_dylib),
     {| engine := engine w0;
        log := (log w0 ++ map ev_exists ([] ++ [debug_dylib]) ++ [ev_CDLL debug_dylib])%list |}) /\
  __init__ broken_debug_host None (blank, w0) =
    (inl (OSError debug_dylib),
     (blank,
      {| engine := engine w0;
         log := (log w0 ++ map ev_exists ([] ++ [debug_dylib]) ++ [ev_CDLL debug_dylib])%list |})).
Proof.
  split; [left; reflexivity|]. split; [reflexivity|]. split; [constructor|].
  split; [reflexivity|]. split; [reflexivity|]. split; [reflexivity|].
  exact (no_fallback_after_failed_load broken_debug_host "libxdl_ffi.dylib" []
           (tl (possible_paths broken_debug_host "libxdl_ffi.dylib"))
           debug_dylib (OSError debug_dylib) w0
           (or_introl eq_refl) eq_refl (Forall_nil _) eq_refl eq_refl).
Defined.
